(** * container_state_exporter: the state-collection contract

    A shallow embedding of the exporter's two source variants:
    - [Startup]  : the variant that opens the runtime connection once at
                   start-up and computes the ordinal from the container state;
    - [PerCall]  : the variant of [main.go], which connects on every call and
                   emits the constant 0.

    Go strings are byte sequences: they are [string] (lists of 8-bit [ascii]).
    [float64] is the kernel's binary64 [float].  The map of ordinals is a
    [gmap string float].  A function that logs, sends on the metrics channel
    or panics runs in the monad [M] below. *)

From Corelib Require Import PrimFloat.
From Stdlib Require Import Ascii.
From Stdlib Require String.
From stdpp Require Import gmap strings list.

#[local] Set Warnings "-inexact-float".

(** ** The part of Go's [strings] package the exporter calls *)

Module strings.

(** [strings.HasPrefix(s, prefix)] *)
Fixpoint HasPrefix (s prefix : string) {struct prefix} : bool :=
  match prefix with
  | EmptyString => true
  | String p prefix' =>
      match s with
      | EmptyString => false
      | String c s' => if Ascii.eqb c p then HasPrefix s' prefix' else false
      end
  end.

(** The slice [s[n:]]. *)
Fixpoint sliceFrom (n : nat) (s : string) : string :=
  match n with
  | O => s
  | S n' => match s with
            | EmptyString => EmptyString
            | String _ s' => sliceFrom n' s'
            end
  end.

(** [strings.TrimPrefix(s, prefix)]: [s] without the leading [prefix], or
    [s] itself when it does not start with [prefix]. *)
Definition TrimPrefix (s prefix : string) : string :=
  if HasPrefix s prefix then sliceFrom (String.length prefix) s else s.

(** [strings.Contains(s, substr)]: [substr] occurs at some position of [s]. *)
Fixpoint Contains (s substr : string) : bool :=
  if HasPrefix s substr then true
  else match s with
       | EmptyString => false
       | String _ s' => Contains s' substr
       end.

(** [strings.Split(s, sep)] for a one-byte separator [sep]: the pieces of
    [s] between the occurrences of [sep]; always at least one piece. *)
Fixpoint Split (s : string) (sep : ascii) : list string :=
  match s with
  | EmptyString => [EmptyString]
  | String c s' =>
      if Ascii.eqb c sep then EmptyString :: Split s' sep
      else match Split s' sep with
           | [] => [String c EmptyString]
           | piece :: pieces => String c piece :: pieces
           end
  end.

End strings.

(** ** Constants and the map of ordinals (the variant with the state mapper) *)

Definition CREATED : string := "created".
Definition RESTARTING : string := "restarting".
Definition EXITED : string := "exited".
Definition RUNNING : string := "running".
Definition UNKNOW : string := "noknow".

Definition UNKNOWStateValue : float := 0.1%float.
Definition CreatedStateValue : float := 0.2%float.
Definition RestartingStateValue : float := 0.4%float.
Definition ExitedStateValue : float := 0.6%float.
Definition RunningStateValue : float := 1%float.

Definition ContainerStatusMap : gmap string float :=
  <[CREATED := CreatedStateValue]>
  (<[RESTARTING := RestartingStateValue]>
  (<[EXITED := ExitedStateValue]>
  (<[RUNNING := RunningStateValue]>
  (<[UNKNOW := UNKNOWStateValue]> ∅)))).

(** Go's one-result index [m[k]]: the zero value when [k] is absent. *)
Definition index (m : gmap string float) (k : string) : float :=
  default 0%float (m !! k).

(** [GetContainerStateValue]: the two-result lookup, then the fallback. *)
Definition GetContainerStateValue (state : string) : float :=
  match ContainerStatusMap !! state with
  | Some v => v
  | None => index ContainerStatusMap UNKNOW
  end.

(** The version extractor, the same text in both variants: the pieces of
    the image reference around each ':'; when there are at least two pieces
    and the whole reference contains "aiforward", the second piece.  The
    guard keeps the index [split[1]] inside the slice
    ([GetContainerVersion_index_in_range]), so the default of [nth] is never
    read. *)
Definition GetContainerVersion (image : string) : string :=
  let split := strings.Split image ":"%char in
  if (1 <? length split) && strings.Contains image "aiforward"
  then nth 1 split ""
  else "".

(** The split of the specification's wording, not of the source: [s] cut at
    its LAST [sep], or nothing when [s] holds no [sep]. *)
Fixpoint cutLast (s : string) (sep : ascii) : option (string * string) :=
  match s with
  | EmptyString => None
  | String c s' =>
      match cutLast s' sep with
      | Some (before, after) => Some (String c before, after)
      | None => if Ascii.eqb c sep then Some (EmptyString, s') else None
      end
  end.

(** The extractor as the specification words it, to compare with the one of
    the source: split on the last ':' into repository and tag; empty when
    there is no ':' or when the repository lacks the marker, the tag
    otherwise. *)
Definition GetContainerVersion_spec (image : string) : string :=
  match cutLast image ":"%char with
  | None => ""
  | Some (repository, tag) =>
      if strings.Contains repository "aiforward" then tag else ""
  end.

(** ** Container records, descriptors and samples *)

(** [types.Container], the fields the exporter reads. *)
Record Container := {
  ID : string;
  Names : list string;
  Image : string;
  Status : string;
  State : string
}.

(** [prometheus.Desc] as [NewDesc] fills it. *)
Record Desc := {
  fqName : string;
  help : string;
  variableLabels : list string
}.

Inductive ValueType := CounterValue | GaugeValue | UntypedValue.

(** A constant metric: what [MustNewConstMetric] returns. *)
Record Metric := {
  desc : Desc;
  valType : ValueType;
  val : float;
  labelValues : list string
}.

Record Exporter := { queryDockerStatus : Desc }.

Definition NewDesc (fqName help : string) (variableLabels : list string) : Desc :=
  {| fqName := fqName; help := help; variableLabels := variableLabels |}.

Definition NewExporter : Exporter :=
  {| queryDockerStatus :=
       NewDesc "container_run_state" "query container status "
               ["name"; "id"; "image"; "status"; "state"; "version"] |}.

(** ** Effects: the metrics channel, the log, panics *)

Definition error := string.

Inductive LogLine :=
| Printf (format : string) (err : error)
| Println (info : Container).

(** What a run has done so far: the samples sent on the channel [ch] and the
    lines written to the log, oldest first. *)
Record Proc := { sent : list Metric; logged : list LogLine }.

Inductive Outcome (A : Type) :=
| Returned (a : A)
| Panicked (msg : string).
Arguments Returned {A} a.
Arguments Panicked {A} msg.

Definition M (A : Type) : Type := Proc -> Outcome A * Proc.

#[global] Instance M_ret : MRet M := fun A a p => (Returned a, p).

#[global] Instance M_bind : MBind M := fun A B k m p =>
  match m p with
  | (Returned a, p') => k a p'
  | (Panicked msg, p') => (Panicked msg, p')
  end.

Definition panic {A} (msg : string) : M A := fun p => (Panicked msg, p).

(** [ch <- m]: the sample joins those already sent. *)
Definition send (m : Metric) : M unit := fun p =>
  (Returned tt, {| sent := sent p ++ [m]; logged := logged p |}).

Definition logLine (l : LogLine) : M unit := fun p =>
  (Returned tt, {| sent := sent p; logged := logged p ++ [l] |}).

(** The index expression [a[i]]: a run-time panic outside the slice. *)
Definition at_index (a : list string) (i : nat) : M string :=
  match a !! i with
  | Some x => mret x
  | None => panic "index out of range"
  end.

(** [for _, x := range l { body }] *)
Fixpoint forRange {A} (l : list A) (body : A -> M unit) : M unit :=
  match l with
  | [] => mret tt
  | x :: l' => body x ;; forRange l' body
  end.

(** [prometheus.MustNewConstMetric]: panics unless there is one label value
    per label name of the descriptor.  (The library also rejects a label
    value that is not valid UTF-8.  The strings of a record come out of the
    JSON decoder, which yields valid UTF-8 only, and cutting at '/' or ':'
    keeps them valid: that check is left out.) *)
Definition MustNewConstMetric (d : Desc) (vt : ValueType) (value : float)
    (labelValues : list string) : M Metric :=
  if length labelValues =? length (variableLabels d)
  then mret {| desc := d; valType := vt; val := value; labelValues := labelValues |}
  else panic "inconsistent label cardinality".

(** What the runtime client hands back from [ContainerList]: Go's pair of a
    list and an error.  The runtime is outside the program: its reply is an
    input of the gateway. *)
Definition ListReply : Type := list Container * option error.

(** *** The variant that connects once at start-up *)

Module Startup.

Definition GetContainerList (reply : ListReply) : M (list Container) :=
  let '(containerList, err) := reply in
  match err with
  | Some e =>
      logLine (Printf "connect docker server err, %#v" e) ;;
      mret containerList
  | None => mret containerList
  end.

Definition Collect (e : Exporter) (reply : ListReply) : M unit :=
  containers ← GetContainerList reply;
  forRange containers (fun info =>
    let value := GetContainerStateValue (State info) in
    name ← at_index (Names info) 0;
    m ← MustNewConstMetric (queryDockerStatus e) GaugeValue value
          [strings.TrimPrefix name "/"; ID info; Image info; Status info;
           State info; GetContainerVersion (Image info)];
    send m).

End Startup.

(** *** The variant of main.go: a connection per call, the constant 0 *)

Module PerCall.

(** [dial] is the error of [client.NewClientWithOpts], if any. *)
Definition GetContainerList (dial : option error) (reply : ListReply)
    : M (list Container) :=
  match dial with
  | Some e =>
      logLine (Printf "connect docker server err, %#v" e) ;;
      mret []
  | None =>
      let '(containerList, err) := reply in
      match err with
      | Some e =>
          logLine (Printf "connect docker server err, %#v" e) ;;
          mret containerList
      | None => mret containerList
      end
  end.

Definition Collect (e : Exporter) (dial : option error) (reply : ListReply)
    : M unit :=
  containers ← GetContainerList dial reply;
  forRange containers (fun info =>
    logLine (Println info) ;;
    name ← at_index (Names info) 0;
    m ← MustNewConstMetric (queryDockerStatus e) GaugeValue 0%float
          [strings.TrimPrefix name "/"; ID info; Image info; Status info;
           State info; GetContainerVersion (Image info)];
    send m).

End PerCall.

(** ** Reading a run *)

(** A process that has sent and logged nothing yet. *)
Definition start : Proc := {| sent := []; logged := [] |}.

Definition extend (p d : Proc) : Proc :=
  {| sent := sent p ++ sent d; logged := logged p ++ logged d |}.

(** What a computation returns, and what it sends and logs, from [start]. *)
Definition result {A} (m : M A) : Outcome A := (m start).1.
Definition effect {A} (m : M A) : Proc := (m start).2.

(** A computation that only appends to the channel and the log, and whose
    result and output do not depend on what was sent or logged before. *)
Definition appends {A} (m : M A) : Prop :=
  forall p, m p = (result m, extend p (effect m)).

(** The sample of a record that has a first name, given how the value is
    computed. *)
Definition sampleOf (value : Container -> float) (info : Container) : Metric :=
  {| desc := queryDockerStatus NewExporter;
     valType := GaugeValue;
     val := value info;
     labelValues :=
       [strings.TrimPrefix (hd "" (Names info)) "/"; ID info; Image info;
        Status info; State info; GetContainerVersion (Image info)] |}.

(** The records before the first one that has no name. *)
Fixpoint served (l : list Container) : list Container :=
  match l with
  | [] => []
  | info :: l' =>
      match Names info with
      | [] => []
      | _ :: _ => info :: served l'
      end
  end.

(** The records up to and including the first one that has no name. *)
Fixpoint attempted (l : list Container) : list Container :=
  match l with
  | [] => []
  | info :: l' =>
      match Names info with
      | [] => [info]
      | _ :: _ => info :: attempted l'
      end
  end.

(** How the loop over [l] ends. *)
Fixpoint loopOutcome (l : list Container) : Outcome unit :=
  match l with
  | [] => Returned tt
  | info :: l' =>
      match Names info with
      | [] => Panicked "index out of range"
      | _ :: _ => loopOutcome l'
      end
  end.

Definition errLines (err : option error) : list LogLine :=
  match err with
  | Some e => [Printf "connect docker server err, %#v" e]
  | None => []
  end.

(** Three records for the examples: one with a runtime-prefixed name and an
    internal image, one that has lost its names, one whose image has no tag. *)
Definition web : Container :=
  {| ID := "4f2a9c"; Names := ["/my-container"];
     Image := "org/aiforward-service:v2.3"; Status := "Up 2 hours";
     State := "running" |}.

Definition orphan : Container :=
  {| ID := "9be01d"; Names := [];
     Image := "org/aiforward-service:v2.3"; Status := "Removal In Progress";
     State := "removing" |}.

Definition db : Container :=
  {| ID := "c07731"; Names := ["db"];
     Image := "postgres"; Status := "Exited (0) 3 days ago";
     State := "exited" |}.

(** A record whose name the runtime did not prefix. *)
Definition plain : Container :=
  {| ID := "e51b08"; Names := ["my-container"];
     Image := "org/other-service:v2.3"; Status := "Created";
     State := "created" |}.

(** ** The rest of the exporter *)

(** [Describe], the same text in both variants: [ch <- e.queryDockerStatus]
    on the channel of descriptors [ch]. *)
Definition Describe (e : Exporter) (ch : list Desc) : list Desc :=
  ch ++ [queryDockerStatus e].

(** A record that has at least one declared name. *)
Definition named (info : Container) : Prop := Names info <> [].

(** [strings.Join(elems, sep)]: the exporter does not call it; the pieces of
    [strings.Split] are read against it. *)
Fixpoint Join (elems : list string) (sep : string) : string :=
  match elems with
  | [] => ""
  | piece :: rest =>
      match rest with
      | [] => piece
      | _ :: _ => piece +:+ sep +:+ Join rest sep
      end
  end.

(** *** [InitDockerConnect] of the start-up variant

    The client library is outside the program.  [NewClientWithOpts] hands
    back Go's pair of a client pointer ([None] is nil) and an error; the one
    call of [Close] ends with an error, with nil, or panics. *)

Definition Client := nat.

Inductive InitLine :=
| InitPrintln (line : string)
| InitPrintf (format : string) (err : error).

(** The package variable [DockerClient], the log, and the clients on which
    [Close] has been called, oldest first. *)
Record Init := {
  DockerClient : option Client;
  initLogged : list InitLine;
  closed : list (option Client)
}.

(** The deferred function: it runs when the body is over, on every path. *)
Definition deferredClose (c : option Client) (closeResult : Outcome (option error))
    (s : Init) : Outcome unit * Init :=
  let s' := {| DockerClient := DockerClient s; initLogged := initLogged s;
               closed := closed s ++ [c] |} in
  match closeResult with
  | Returned (Some err) =>
      (Returned tt,
       {| DockerClient := DockerClient s';
          initLogged := initLogged s' ++ [InitPrintf "client close err:%v\n" err];
          closed := closed s' |})
  | Returned None => (Returned tt, s')
  | Panicked msg => (Panicked msg, s')
  end.

Definition InitDockerConnect (dial : option Client * option error)
    (closeResult : Outcome (option error)) (s : Init) : Outcome unit * Init :=
  let '(c, err) := dial in
  let s1 := {| DockerClient := DockerClient s;
               initLogged := initLogged s ++ [InitPrintln "init docker server connect"];
               closed := closed s |} in
  let s2 :=
    match err with
    | Some e =>
        {| DockerClient := DockerClient s1;
           initLogged := initLogged s1 ++ [InitPrintf "connect docker server err, %#v\n" e];
           closed := closed s1 |}
    | None =>
        {| DockerClient := c; initLogged := initLogged s1; closed := closed s1 |}
    end in
  deferredClose c closeResult s2.

(** ** The state mapper *)

Section StateMapper.

Local Open Scope float_scope.

(** Looking up a key that is none of the five keys of the map finds nothing. *)
Lemma ContainerStatusMap_miss (state : string) :
  state <> CREATED -> state <> RESTARTING -> state <> EXITED ->
  state <> RUNNING -> state <> UNKNOW ->
  ContainerStatusMap !! state = None.
Proof.
  intros H1 H2 H3 H4 H5. unfold ContainerStatusMap.
  rewrite !lookup_insert_ne by congruence. apply lookup_empty.
Qed.

(** The fallback index finds the key [UNKNOW]: it never yields the zero
    value of a missing key. *)
Lemma fallback_present : ContainerStatusMap !! UNKNOW = Some UNKNOWStateValue.
Proof. vm_compute. reflexivity. Qed.

(** The mapper by cases on the state name. *)
Lemma GetContainerStateValue_cases (state : string) :
  GetContainerStateValue state =
    if decide (state = "created") then 0.2
    else if decide (state = "restarting") then 0.4
    else if decide (state = "exited") then 0.6
    else if decide (state = "running") then 1
    else 0.1.
Proof.
  repeat case_decide; subst; try (vm_compute; reflexivity).
  destruct (decide (state = UNKNOW)) as [->|Hne].
  - vm_compute. reflexivity.
  - unfold GetContainerStateValue.
    rewrite ContainerStatusMap_miss by assumption.
    unfold index. rewrite fallback_present. reflexivity.
Qed.

(** C1. The recognized states map to the documented ordinals (created 0.2,
    restarting 0.4, exited 0.6, running 1.0); every other string, the
    empty string and the name "unknown" among them, maps to 0.1.  The
    mapper is a total function: the fallback never fails. *)
Theorem GetContainerStateValue_ordinals :
  (forall state : string,
     GetContainerStateValue state =
       if decide (state = "created") then 0.2
       else if decide (state = "restarting") then 0.4
       else if decide (state = "exited") then 0.6
       else if decide (state = "running") then 1
       else 0.1) /\
  GetContainerStateValue "created" = 0.2 /\
  GetContainerStateValue "restarting" = 0.4 /\
  GetContainerStateValue "exited" = 0.6 /\
  GetContainerStateValue "running" = 1 /\
  GetContainerStateValue "" = 0.1 /\
  GetContainerStateValue "unknown" = 0.1 /\
  GetContainerStateValue UNKNOW = UNKNOWStateValue /\
  UNKNOWStateValue = 0.1.
Proof.
  split; [exact GetContainerStateValue_cases|].
  repeat split; vm_compute; reflexivity.
Qed.

(** Every ordinal the mapper returns is one of the five constants. *)
Lemma GetContainerStateValue_constants (state : string) :
  GetContainerStateValue state ∈
    [CreatedStateValue; RestartingStateValue; ExitedStateValue;
     RunningStateValue; UNKNOWStateValue].
Proof.
  rewrite GetContainerStateValue_cases.
  repeat case_decide; set_solver.
Qed.

(** An ordinal is at least 0.1, at most 1, and is not the float 0. *)
Lemma GetContainerStateValue_bounds (state : string) :
  (0.1 <=? GetContainerStateValue state) = true /\
  (GetContainerStateValue state <=? 1) = true /\
  (0 <? GetContainerStateValue state) = true.
Proof.
  rewrite GetContainerStateValue_cases.
  repeat case_decide; repeat split; vm_compute; reflexivity.
Qed.

Lemma GetContainerStateValue_nonzero (state : string) :
  GetContainerStateValue state <> 0.
Proof.
  intros H. pose proof (GetContainerStateValue_bounds state) as (_ & _ & Hpos).
  rewrite H in Hpos. vm_compute in Hpos. discriminate.
Qed.

(** Go's [==] on float64 agrees: no ordinal compares equal to 0. *)
Lemma GetContainerStateValue_eqb_zero (state : string) :
  (0 =? GetContainerStateValue state) = false.
Proof.
  rewrite GetContainerStateValue_cases.
  repeat case_decide; vm_compute; reflexivity.
Qed.

(** C6. Every ordinal the mapper returns lies in (0, 1], and the
    unknown ordinal 0.1 is strictly below the ordinal of each recognized
    state, "exited" included. *)
Theorem StateOrdinal_interval_and_order :
  (forall state : string,
     (0 <? GetContainerStateValue state) = true /\
     (GetContainerStateValue state <=? 1) = true) /\
  GetContainerStateValue "unknown" = UNKNOWStateValue /\
  (UNKNOWStateValue <? GetContainerStateValue CREATED) = true /\
  (UNKNOWStateValue <? GetContainerStateValue RESTARTING) = true /\
  (UNKNOWStateValue <? GetContainerStateValue EXITED) = true /\
  (UNKNOWStateValue <? GetContainerStateValue RUNNING) = true.
Proof.
  split.
  - intros state.
    pose proof (GetContainerStateValue_bounds state) as (_ & Hle & Hpos).
    split; assumption.
  - repeat split; vm_compute; reflexivity.
Qed.

End StateMapper.

(** ** Facts about the string functions *)

Section StringFacts.

Implicit Types s a b t prefix substr : string.
#[local] Arguments Ascii.eqb : simpl never.

Lemma append_cons c s t : String c s +:+ t = String c (s +:+ t).
Proof. reflexivity. Qed.

Lemma append_empty_r s : s +:+ "" = s.
Proof.
  induction s as [|c s IH]; [reflexivity|].
  rewrite append_cons, IH. reflexivity.
Qed.

Lemma HasPrefix_empty s : strings.HasPrefix s "" = true.
Proof. reflexivity. Qed.

Lemma HasPrefix_app s prefix :
  strings.HasPrefix s prefix = true <-> exists t, s = prefix +:+ t.
Proof.
  revert s. induction prefix as [|p prefix IH]; intros s; simpl.
  - split; [intros _; exists s; reflexivity | intros _; reflexivity].
  - destruct s as [|c s]; simpl.
    + split; [discriminate | intros [t Ht]; discriminate].
    + destruct (Ascii.eqb_spec c p) as [->|Hne].
      * rewrite IH. split; intros [t Ht]; exists t;
          rewrite append_cons in *; congruence.
      * split; [discriminate | intros [t Ht]; rewrite append_cons in Ht; congruence].
Qed.

Lemma Contains_cons c s substr :
  strings.Contains (String c s) substr =
    strings.HasPrefix (String c s) substr || strings.Contains s substr.
Proof. simpl. destruct (strings.HasPrefix _ _); reflexivity. Qed.

(** A string holds no ':' exactly when none of its bytes is one. *)
Lemma Contains_colon_cons c s :
  strings.Contains (String c s) ":" = Ascii.eqb c ":" || strings.Contains s ":".
Proof.
  rewrite Contains_cons. simpl.
  destruct (Ascii.eqb c ":"); reflexivity.
Qed.

Lemma no_colon_cons c s :
  strings.Contains (String c s) ":" = false ->
  Ascii.eqb c ":" = false /\ strings.Contains s ":" = false.
Proof. rewrite Contains_colon_cons. apply orb_false_elim. Qed.

Lemma Split_not_nil s sep : strings.Split s sep <> [].
Proof.
  destruct s as [|c s]; simpl; [discriminate|].
  destruct (Ascii.eqb c sep); [discriminate|].
  destruct (strings.Split s sep); discriminate.
Qed.

Lemma Split_no_colon s :
  strings.Contains s ":" = false -> strings.Split s ":" = [s].
Proof.
  induction s as [|c s IH]; intros H; [reflexivity|].
  apply no_colon_cons in H as [Hc Hs]. simpl.
  rewrite Hc, (IH Hs). reflexivity.
Qed.

Lemma Split_app a b :
  strings.Contains a ":" = false ->
  strings.Split (a +:+ String ":" b) ":" = a :: strings.Split b ":".
Proof.
  induction a as [|c a IH]; intros H; [reflexivity|].
  apply no_colon_cons in H as [Hc Ha]. simpl.
  rewrite Hc, (IH Ha). reflexivity.
Qed.

Lemma cutLast_no_colon s :
  strings.Contains s ":" = false -> cutLast s ":" = None.
Proof.
  induction s as [|c s IH]; intros H; [reflexivity|].
  apply no_colon_cons in H as [Hc Hs]. simpl.
  rewrite (IH Hs), Hc. reflexivity.
Qed.

Lemma cutLast_single a t :
  strings.Contains t ":" = false ->
  cutLast (a +:+ String ":" t) ":" = Some (a, t).
Proof.
  intros Ht. induction a as [|c a IH]; simpl.
  - rewrite (cutLast_no_colon _ Ht). reflexivity.
  - rewrite IH. reflexivity.
Qed.

(** A marker without ':' cannot begin inside [a] and end beyond the ':'. *)
Lemma HasPrefix_before_colon a t substr :
  strings.Contains substr ":" = false ->
  strings.HasPrefix (a +:+ String ":" t) substr = strings.HasPrefix a substr.
Proof.
  revert a. induction substr as [|d substr IH]; intros a H; [reflexivity|].
  apply no_colon_cons in H as [Hd Hs].
  destruct a as [|c a]; simpl.
  - rewrite Ascii.eqb_sym, Hd. reflexivity.
  - destruct (Ascii.eqb c d); [apply IH, Hs | reflexivity].
Qed.

Lemma Contains_around_colon a t substr :
  substr <> "" -> strings.Contains substr ":" = false ->
  strings.Contains (a +:+ String ":" t) substr =
    strings.Contains a substr || strings.Contains t substr.
Proof.
  intros Hne Hs. induction a as [|c a IH].
  - change ("" +:+ String ":" t) with (String ":" t).
    rewrite Contains_cons.
    replace (strings.HasPrefix (String ":" t) substr) with false.
    + destruct substr; [congruence | reflexivity].
    + change (String ":" t) with ("" +:+ String ":" t).
      rewrite HasPrefix_before_colon by assumption.
      destruct substr; [congruence | reflexivity].
  - change (String c a +:+ String ":" t) with (String c (a +:+ String ":" t)).
    rewrite !Contains_cons, IH.
    change (String c (a +:+ String ":" t)) with (String c a +:+ String ":" t).
    rewrite HasPrefix_before_colon by assumption.
    rewrite orb_assoc. reflexivity.
Qed.

End StringFacts.

(** ** The version extractor *)

Section VersionExtractor.

Implicit Types image a t rest : string.

(** The guard [len(split) > 1] keeps the index [split[1]] inside the slice:
    the extractor never reads past the pieces. *)
Lemma GetContainerVersion_index_in_range image :
  (1 <? length (strings.Split image ":")) = true ->
  is_Some (strings.Split image ":" !! 1).
Proof.
  intros H. apply Nat.ltb_lt in H. apply lookup_lt_is_Some_2. exact H.
Qed.

Lemma GetContainerVersion_no_colon image :
  strings.Contains image ":" = false -> GetContainerVersion image = "".
Proof.
  intros H. unfold GetContainerVersion.
  rewrite (Split_no_colon _ H). reflexivity.
Qed.

Lemma GetContainerVersion_no_marker image :
  strings.Contains image "aiforward" = false -> GetContainerVersion image = "".
Proof.
  intros H. unfold GetContainerVersion.
  rewrite H, andb_false_r. reflexivity.
Qed.

Lemma GetContainerVersion_second_piece a t rest :
  strings.Contains a ":" = false ->
  strings.Contains t ":" = false ->
  rest = "" \/ strings.HasPrefix rest ":" = true ->
  strings.Contains (a +:+ ":" +:+ t +:+ rest) "aiforward" = true ->
  GetContainerVersion (a +:+ ":" +:+ t +:+ rest) = t.
Proof.
  intros Ha Ht Hrest Hm. unfold GetContainerVersion. rewrite Hm.
  change (":" +:+ t +:+ rest) with (String ":" (t +:+ rest)).
  rewrite (Split_app _ _ Ha).
  destruct Hrest as [->|Hrest].
  - rewrite append_empty_r.
    rewrite (Split_no_colon _ Ht). reflexivity.
  - apply HasPrefix_app in Hrest as [r ->].
    change (":" +:+ r) with (String ":" r).
    rewrite (Split_app _ _ Ht).
    pose proof (Split_not_nil r ":") as Hr.
    destruct (strings.Split r ":"); [congruence | reflexivity].
Qed.

(** On a reference with a single ':' the extractor and the specification's
    words agree unless the marker occurs in the tag only. *)
Lemma GetContainerVersion_single_colon a t :
  strings.Contains a ":" = false ->
  strings.Contains t ":" = false ->
  strings.Contains a "aiforward" = true \/ strings.Contains t "aiforward" = false ->
  GetContainerVersion (a +:+ ":" +:+ t) = GetContainerVersion_spec (a +:+ ":" +:+ t).
Proof.
  intros Ha Ht Hm. unfold GetContainerVersion, GetContainerVersion_spec.
  change (":" +:+ t) with (String ":" t).
  rewrite (cutLast_single _ _ Ht), (Split_app _ _ Ha), (Split_no_colon _ Ht).
  rewrite Contains_around_colon by (discriminate || reflexivity).
  destruct Hm as [->| ->]; [reflexivity|].
  rewrite orb_false_r. destruct (strings.Contains a "aiforward"); reflexivity.
Qed.

(** C2, as stated, fails.  On a reference with a registry port the extractor
    returns the piece between the first two ':' where the specification's
    words give the tag after the last ':'; and it accepts a marker that
    occurs in the tag only, where the specification's words look at the
    repository. *)
Lemma GetContainerVersion_differs_from_spec :
  GetContainerVersion "registry:5000/aiforward/svc:v1" = "5000/aiforward/svc" /\
  GetContainerVersion_spec "registry:5000/aiforward/svc:v1" = "v1" /\
  GetContainerVersion "org/svc:aiforward-1" = "aiforward-1" /\
  GetContainerVersion_spec "org/svc:aiforward-1" = "" /\
  ~ (forall image, GetContainerVersion image = GetContainerVersion_spec image).
Proof.
  repeat split; try (vm_compute; reflexivity).
  intros H. specialize (H "org/svc:aiforward-1").
  vm_compute in H. discriminate.
Qed.

(** C2, amended.  The extractor cuts the reference at every ':'.  It returns
    the empty string when the reference holds no ':' or when the whole
    reference does not contain "aiforward"; otherwise it returns the second
    piece: the text between the first ':' and the next one, or the end of
    the reference when there is no other.  On a reference with a single ':'
    that piece is the tag: what the cut at the last ':' leaves behind it. *)
Theorem GetContainerVersion_second_piece_of_marked_image :
  forall image,
    (strings.Contains image ":" = false -> GetContainerVersion image = "") /\
    (strings.Contains image "aiforward" = false -> GetContainerVersion image = "") /\
    (forall a t rest,
       image = a +:+ ":" +:+ t +:+ rest ->
       strings.Contains a ":" = false ->
       strings.Contains t ":" = false ->
       rest = "" \/ strings.HasPrefix rest ":" = true ->
       strings.Contains image "aiforward" = true ->
       GetContainerVersion image = t) /\
    (forall repository tag,
       image = repository +:+ ":" +:+ tag ->
       strings.Contains repository ":" = false ->
       strings.Contains tag ":" = false ->
       strings.Contains image "aiforward" = true ->
       cutLast image ":" = Some (repository, tag) /\
       GetContainerVersion image = tag).
Proof.
  intros image. split; [|split; [|split]].
  - apply GetContainerVersion_no_colon.
  - apply GetContainerVersion_no_marker.
  - intros a t rest -> Ha Ht Hrest Hm.
    apply GetContainerVersion_second_piece; assumption.
  - intros repository tag -> Hr Ht Hm. split.
    + apply (cutLast_single repository tag Ht).
    + pose proof (GetContainerVersion_second_piece repository tag ""
                    Hr Ht (or_introl eq_refl)) as H.
      rewrite append_empty_r in H. exact (H Hm).
Qed.

(** The four cases of the amended statement on concrete references. *)
Lemma GetContainerVersion_second_piece_of_marked_image_witness :
  GetContainerVersion "org/aiforward-service" = "" /\
  GetContainerVersion "org/other-service:v2.3" = "" /\
  GetContainerVersion "registry:5000/aiforward/svc:v1" = "5000/aiforward/svc" /\
  (cutLast "org/aiforward-service:v2.3" ":" = Some ("org/aiforward-service", "v2.3") /\
   GetContainerVersion "org/aiforward-service:v2.3" = "v2.3").
Proof.
  split; [|split; [|split]].
  - apply (proj1 (GetContainerVersion_second_piece_of_marked_image
                    "org/aiforward-service")).
    vm_compute; reflexivity.
  - apply (proj1 (proj2 (GetContainerVersion_second_piece_of_marked_image
                           "org/other-service:v2.3"))).
    vm_compute; reflexivity.
  - apply (proj1 (proj2 (proj2 (GetContainerVersion_second_piece_of_marked_image
                                  "registry:5000/aiforward/svc:v1")))
             "registry" "5000/aiforward/svc" ":v1").
    + reflexivity.
    + vm_compute; reflexivity.
    + vm_compute; reflexivity.
    + right. vm_compute; reflexivity.
    + vm_compute; reflexivity.
  - apply (proj2 (proj2 (proj2 (GetContainerVersion_second_piece_of_marked_image
                                  "org/aiforward-service:v2.3")))
             "org/aiforward-service" "v2.3").
    + reflexivity.
    + vm_compute; reflexivity.
    + vm_compute; reflexivity.
    + vm_compute; reflexivity.
Defined.

(** C10. The three documented vectors of the version extractor. *)
Theorem GetContainerVersion_vectors :
  GetContainerVersion "org/aiforward-service:v2.3" = "v2.3" /\
  GetContainerVersion "org/other-service:v2.3" = "" /\
  GetContainerVersion "org/aiforward-service" = "".
Proof. repeat split; vm_compute; reflexivity. Qed.

End VersionExtractor.

(** ** Running the monad *)

Section Running.

Implicit Types p d : Proc.

Lemma run_bind {A B} (m : M A) (k : A -> M B) p :
  (m ≫= k) p =
    match m p with
    | (Returned a, p') => k a p'
    | (Panicked msg, p') => (Panicked msg, p')
    end.
Proof. reflexivity. Qed.

Lemma run_ret {A} (a : A) p : (mret a : M A) p = (Returned a, p).
Proof. reflexivity. Qed.

Lemma forRange_cons {A} (x : A) (xs : list A) body :
  forRange (x :: xs) body = (body x ;; forRange xs body).
Proof. reflexivity. Qed.

Lemma at_index_nil i p : at_index [] i p = (Panicked "index out of range", p).
Proof. reflexivity. Qed.

Lemma at_index_head x a p : at_index (x :: a) 0 p = (Returned x, p).
Proof. reflexivity. Qed.

(** The descriptor of [NewExporter] has six label names and both variants
    pass six label values: the constructor of the sample never panics. *)
Lemma MustNewConstMetric_six vt value l1 l2 l3 l4 l5 l6 p :
  MustNewConstMetric (queryDockerStatus NewExporter) vt value
    [l1; l2; l3; l4; l5; l6] p =
  (Returned {| desc := queryDockerStatus NewExporter; valType := vt;
               val := value; labelValues := [l1; l2; l3; l4; l5; l6] |}, p).
Proof. reflexivity. Qed.

Lemma extend_start p : extend p start = p.
Proof. destruct p. unfold extend. simpl. rewrite !app_nil_r. reflexivity. Qed.

Lemma extend_assoc p d1 d2 : extend (extend p d1) d2 = extend p (extend d1 d2).
Proof. unfold extend. simpl. rewrite !app_assoc. reflexivity. Qed.

(** *** Computations that only append *)

Lemma appends_ret {A} (a : A) : appends (mret a : M A).
Proof. intros p. unfold result, effect. rewrite !run_ret. simpl. rewrite extend_start. reflexivity. Qed.

Lemma appends_panic {A} msg : appends (panic msg : M A).
Proof. intros p. unfold result, effect, panic. simpl. rewrite extend_start. reflexivity. Qed.

Lemma appends_send m : appends (send m).
Proof. intros p. unfold result, effect, send, extend. simpl. rewrite app_nil_r. reflexivity. Qed.

Lemma appends_logLine line : appends (logLine line).
Proof. intros p. unfold result, effect, logLine, extend. simpl. rewrite app_nil_r. reflexivity. Qed.

Lemma appends_bind {A B} (m : M A) (k : A -> M B) :
  appends m -> (forall a, appends (k a)) -> appends (m ≫= k).
Proof.
  intros Hm Hk p. unfold result, effect. rewrite !run_bind, (Hm p).
  unfold result, effect. destruct (m start) as [[a|msg] d]; simpl.
  - rewrite (Hk a (extend p d)), (Hk a d). simpl.
    rewrite extend_assoc. reflexivity.
  - reflexivity.
Qed.

Lemma appends_at_index a i : appends (at_index a i).
Proof.
  unfold at_index. destruct (a !! i); [apply appends_ret | apply appends_panic].
Qed.

Lemma appends_MustNewConstMetric (dsc : Desc) vt value lv :
  appends (MustNewConstMetric dsc vt value lv).
Proof.
  unfold MustNewConstMetric.
  destruct (_ =? _); [apply appends_ret | apply appends_panic].
Qed.

Lemma appends_forRange {A} (l : list A) body :
  (forall x, appends (body x)) -> appends (forRange l body).
Proof.
  intros Hbody. induction l as [|x l IH].
  - apply appends_ret.
  - rewrite forRange_cons. apply appends_bind; [apply Hbody | intros _; exact IH].
Qed.

End Running.

Create HintDb appends.
#[global] Hint Resolve appends_ret appends_panic appends_send appends_logLine
  appends_at_index appends_MustNewConstMetric : appends.
#[global] Hint Extern 2 (appends (_ ≫= _)) =>
  apply appends_bind; [| intros ?] : appends.
#[global] Hint Extern 2 (appends (forRange _ _)) =>
  apply appends_forRange; intros ? : appends.

(** ** The collector *)

Section Collector.

Implicit Types l : list Container.
Implicit Types p : Proc.
Implicit Types info : Container.

Lemma Startup_GetContainerList_appends reply :
  appends (Startup.GetContainerList reply).
Proof. destruct reply as [l [e|]]; simpl; auto with appends. Qed.

Lemma PerCall_GetContainerList_appends dial reply :
  appends (PerCall.GetContainerList dial reply).
Proof.
  destruct dial as [e1|], reply as [l [e2|]]; simpl; auto with appends.
Qed.

(** Neither variant reads what earlier passes sent or logged. *)
Lemma Startup_Collect_appends e reply : appends (Startup.Collect e reply).
Proof.
  unfold Startup.Collect.
  pose proof (Startup_GetContainerList_appends reply).
  auto 10 with appends.
Qed.

Lemma PerCall_Collect_appends e dial reply :
  appends (PerCall.Collect e dial reply).
Proof.
  unfold PerCall.Collect.
  pose proof (PerCall_GetContainerList_appends dial reply).
  auto 10 with appends.
Qed.

(** *** What a pass sends and logs *)

Lemma TrimPrefix_slash (t : string) : strings.TrimPrefix ("/" +:+ t) "/" = t.
Proof. reflexivity. Qed.

Lemma TrimPrefix_no_slash (s : string) :
  strings.HasPrefix s "/" = false -> strings.TrimPrefix s "/" = s.
Proof. intros H. unfold strings.TrimPrefix. rewrite H. reflexivity. Qed.

Lemma Startup_Collect_error_logged e l err p :
  Startup.Collect e (l, Some err) p =
  Startup.Collect e (l, None)
    {| sent := sent p;
       logged := logged p ++ [Printf "connect docker server err, %#v" err] |}.
Proof. reflexivity. Qed.

Lemma PerCall_Collect_error_logged e l err p :
  PerCall.Collect e None (l, Some err) p =
  PerCall.Collect e None (l, None)
    {| sent := sent p;
       logged := logged p ++ [Printf "connect docker server err, %#v" err] |}.
Proof. reflexivity. Qed.

Lemma Startup_Collect_loop l p :
  Startup.Collect NewExporter (l, None) p =
    (loopOutcome l,
     {| sent := sent p ++
                map (sampleOf (fun info => GetContainerStateValue (State info)))
                    (served l);
        logged := logged p |}).
Proof.
  unfold Startup.Collect, Startup.GetContainerList.
  rewrite run_bind, run_ret.
  revert p. induction l as [|c l IH]; intros p.
  - destruct p. cbn. rewrite app_nil_r. reflexivity.
  - rewrite forRange_cons, !run_bind. cbn [loopOutcome served].
    destruct (Names c) as [|name rest] eqn:E.
    + rewrite at_index_nil. destruct p; cbn. rewrite app_nil_r. reflexivity.
    + rewrite at_index_head, run_bind, MustNewConstMetric_six.
      unfold send at 1. rewrite IH. cbn [sent logged map].
      rewrite <- app_assoc. unfold sampleOf at 2. rewrite E. reflexivity.
Qed.

Lemma Startup_Collect_run l err p :
  Startup.Collect NewExporter (l, err) p =
    (loopOutcome l,
     {| sent := sent p ++
                map (sampleOf (fun info => GetContainerStateValue (State info)))
                    (served l);
        logged := logged p ++ errLines err |}).
Proof.
  destruct err as [e|].
  - rewrite Startup_Collect_error_logged, Startup_Collect_loop. reflexivity.
  - rewrite Startup_Collect_loop. simpl. rewrite app_nil_r. reflexivity.
Qed.

Lemma PerCall_Collect_loop l p :
  PerCall.Collect NewExporter None (l, None) p =
    (loopOutcome l,
     {| sent := sent p ++ map (sampleOf (fun _ => 0%float)) (served l);
        logged := logged p ++ map Println (attempted l) |}).
Proof.
  unfold PerCall.Collect, PerCall.GetContainerList.
  rewrite run_bind, run_ret.
  revert p. induction l as [|c l IH]; intros p.
  - destruct p. cbn. rewrite !app_nil_r. reflexivity.
  - rewrite forRange_cons, !run_bind. unfold logLine at 1.
    cbv beta iota. rewrite run_bind.
    cbn [loopOutcome served attempted].
    destruct (Names c) as [|name rest] eqn:E.
    + rewrite at_index_nil. cbn. rewrite app_nil_r. reflexivity.
    + rewrite at_index_head, run_bind, MustNewConstMetric_six.
      unfold send at 1. rewrite IH. cbn [sent logged map].
      rewrite <- !app_assoc. unfold sampleOf at 2. rewrite E. reflexivity.
Qed.

Lemma PerCall_Collect_run l err p :
  PerCall.Collect NewExporter None (l, err) p =
    (loopOutcome l,
     {| sent := sent p ++ map (sampleOf (fun _ => 0%float)) (served l);
        logged := logged p ++ errLines err ++ map Println (attempted l) |}).
Proof.
  destruct err as [e|].
  - rewrite PerCall_Collect_error_logged, PerCall_Collect_loop.
    cbn [sent logged errLines]. rewrite <- app_assoc. reflexivity.
  - rewrite PerCall_Collect_loop. reflexivity.
Qed.

(** A failed dial ends the pass of the per-call variant before any list call. *)
Lemma PerCall_Collect_dial_error e err reply p :
  PerCall.Collect e (Some err) reply p =
    (Returned tt,
     {| sent := sent p;
        logged := logged p ++ [Printf "connect docker server err, %#v" err] |}).
Proof. reflexivity. Qed.

(** The gateway hands on the list that came with the reply, error or not. *)
Lemma Startup_GetContainerList_run l err p :
  Startup.GetContainerList (l, err) p =
    (Returned l, {| sent := sent p; logged := logged p ++ errLines err |}).
Proof.
  destruct err as [e|]; [reflexivity|].
  destruct p. cbn. rewrite app_nil_r. reflexivity.
Qed.

Lemma served_all_named l :
  Forall (fun info => Names info <> []) l -> served l = l.
Proof.
  induction 1 as [|info l Hinfo _ IH]; [reflexivity|].
  simpl. destruct (Names info); [congruence|]. rewrite IH. reflexivity.
Qed.

Lemma loopOutcome_all_named l :
  Forall (fun info => Names info <> []) l -> loopOutcome l = Returned tt.
Proof.
  induction 1 as [|info l Hinfo _ IH]; [reflexivity|].
  simpl. destruct (Names info); [congruence | exact IH].
Qed.

(** When every record has a name, the pass returns and has sent one sample
    per record, in the order of the list; no records, no samples. *)
Lemma Startup_Collect_one_sample_per_named_record l err p :
  Forall (fun info => Names info <> []) l ->
  Startup.Collect NewExporter (l, err) p =
    (Returned tt,
     {| sent := sent p ++
                map (sampleOf (fun info => GetContainerStateValue (State info))) l;
        logged := logged p ++ errLines err |}).
Proof.
  intros H. rewrite Startup_Collect_run.
  rewrite (served_all_named _ H), (loopOutcome_all_named _ H). reflexivity.
Qed.

Lemma Startup_Collect_no_records p :
  Startup.Collect NewExporter ([], None) p = (Returned tt, p).
Proof.
  rewrite Startup_Collect_run. destruct p. cbn. rewrite !app_nil_r. reflexivity.
Qed.

(** A record without names stops the pass where it stands. *)
Lemma Startup_Collect_nameless_panics info l p :
  Names info = [] ->
  Startup.Collect NewExporter (info :: l, None) p =
    (Panicked "index out of range", p).
Proof.
  intros Hn. rewrite Startup_Collect_loop. cbn [loopOutcome served].
  rewrite Hn. destruct p. cbn. rewrite app_nil_r. reflexivity.
Qed.

(** A record with a name and an image without ':' gets the empty version
    label; the pass returns. *)
Lemma Startup_Collect_versionless_image info name rest p :
  Names info = name :: rest ->
  strings.Contains (Image info) ":" = false ->
  exists m,
    Startup.Collect NewExporter ([info], None) p =
      (Returned tt, {| sent := sent p ++ [m]; logged := logged p |}) /\
    labelValues m !! 5 = Some "".
Proof.
  intros Hn Hi. eexists. split.
  - rewrite Startup_Collect_loop. cbn [loopOutcome served]. rewrite Hn. reflexivity.
  - cbn. rewrite (GetContainerVersion_no_colon _ Hi). reflexivity.
Qed.

End Collector.

(** ** The collection contract *)

Section CollectionContract.

Implicit Types l : list Container.
Implicit Types p : Proc.
Implicit Types info : Container.

(** C3. A record whose list of declared names is empty aborts the pass: the
    index expression [info.Names[0]] panics, in both variants, and no sample
    is sent for it; the per-call variant has logged the record by then. *)
Theorem Collect_panics_on_record_without_name :
  Names orphan = [] /\
  Startup.Collect NewExporter ([orphan], None) start =
    (Panicked "index out of range", start) /\
  PerCall.Collect NewExporter None ([orphan], None) start =
    (Panicked "index out of range", {| sent := []; logged := [Println orphan] |}).
Proof. split; [reflexivity | split; reflexivity]. Qed.

(** C4, as stated, fails.  The gateway does not empty the list on an error:
    [containerList, err := ...] assigns the named result, and the bare
    [return] hands it on.  When the client hands back records together with
    its error, the gateway returns them and the pass sends their samples. *)
Lemma GetContainerList_keeps_the_records_of_a_failed_call :
  Startup.GetContainerList ([web; db], Some "json: cannot unmarshal") start =
    (Returned [web; db],
     {| sent := [];
        logged := [Printf "connect docker server err, %#v" "json: cannot unmarshal"] |}) /\
  length (sent (Startup.Collect NewExporter
                  ([web; db], Some "json: cannot unmarshal") start).2) = 2 /\
  ~ (forall l (err : error) p,
       (Startup.GetContainerList (l, Some err) p).1 = Returned []).
Proof.
  split; [reflexivity|]. split; [reflexivity|].
  intros H. specialize (H [web; db] "json: cannot unmarshal" start).
  discriminate H.
Qed.

(** C4, amended.  When the list call reports an error, the gateway logs it
    and returns the list the client handed back with it, as it is: the
    empty list when the client handed back none.  The pass does not fail on
    the error: it goes on as for that list without an error, and on the
    empty list it returns without a panic and sends no sample. *)
Theorem Collect_survives_runtime_error :
  forall (e : Exporter) l (err : error) p,
    let after_log :=
      {| sent := sent p;
         logged := logged p ++ [Printf "connect docker server err, %#v" err] |} in
    Startup.GetContainerList (l, Some err) p = (Returned l, after_log) /\
    Startup.Collect e (l, Some err) p = Startup.Collect e (l, None) after_log /\
    Startup.GetContainerList ([], Some err) p = (Returned [], after_log) /\
    Startup.Collect e ([], Some err) p = (Returned tt, after_log).
Proof.
  intros e l err p after_log. subst after_log.
  split; [reflexivity|]. split; [apply Startup_Collect_error_logged|].
  split; reflexivity.
Qed.

(** C5. A list of three records with a nameless one in the middle: the pass
    sends the sample of the first record and panics; it has not sent one
    sample per record. *)
Theorem Collect_stops_at_record_without_name :
  Startup.Collect NewExporter ([web; orphan; db], None) start =
    (Panicked "index out of range",
     {| sent := [sampleOf (fun info => GetContainerStateValue (State info)) web];
        logged := [] |}) /\
  labelValues <$> sent (effect (Startup.Collect NewExporter ([web; orphan; db], None))) =
    [["my-container"; "4f2a9c"; "org/aiforward-service:v2.3"; "Up 2 hours";
      "running"; "v2.3"]] /\
  length (sent (effect (Startup.Collect NewExporter ([web; orphan; db], None)))) = 1 /\
  length [web; orphan; db] = 3.
Proof. repeat (split; [reflexivity|]). reflexivity. Qed.

(** C7. Two passes in a row over the same reply of the runtime end the same
    way and send the same samples in the same order, whatever was sent and
    logged before: a pass keeps nothing from the pass before it. *)
Theorem Collect_twice_same_samples :
  forall (e : Exporter) (reply : ListReply) p,
    let first := Startup.Collect e reply p in
    let second := Startup.Collect e reply first.2 in
    second.1 = first.1 /\
    exists samples : list Metric,
      sent first.2 = sent p ++ samples /\
      sent second.2 = sent first.2 ++ samples.
Proof.
  intros e reply p first second. subst second first.
  pose proof (Startup_Collect_appends e reply) as H.
  rewrite (H (Startup.Collect e reply p).2), (H p). simpl.
  split; [reflexivity|].
  exists (sent (effect (Startup.Collect e reply))). split; reflexivity.
Qed.

(** The same holds of the per-call variant. *)
Lemma PerCall_Collect_twice_same_samples (e : Exporter) dial (reply : ListReply) p :
  sent (PerCall.Collect e dial reply (PerCall.Collect e dial reply p).2).2 =
  sent (PerCall.Collect e dial reply p).2 ++
  sent (effect (PerCall.Collect e dial reply)).
Proof.
  pose proof (PerCall_Collect_appends e dial reply) as H.
  rewrite (H (PerCall.Collect e dial reply p).2). reflexivity.
Qed.

(** C8. For the same list of containers the two variants end the same way and
    send samples with the same label values in the same order; every value
    of the per-call variant is 0, every value of the start-up variant is the
    ordinal of the record's state, which is at least 0.1: no two
    corresponding values agree, and the variants differ on any list that
    starts with a named record. *)
Theorem Collect_variants_differ_in_value_only :
  forall l (err : option error),
    let percall := PerCall.Collect NewExporter None (l, err) in
    let startup := Startup.Collect NewExporter (l, err) in
    result percall = result startup /\
    labelValues <$> sent (effect percall) = labelValues <$> sent (effect startup) /\
    Forall (fun m => val m = 0%float) (sent (effect percall)) /\
    Forall2 (fun m info => val m = GetContainerStateValue (State info))
            (sent (effect startup)) (served l) /\
    Forall2 (fun m0 m => val m0 <> val m /\ (0.1 <=? val m)%float = true)
            (sent (effect percall)) (sent (effect startup)) /\
    (forall state : string,
       (0.1 <=? GetContainerStateValue state)%float = true /\
       (0 =? GetContainerStateValue state)%float = false /\
       GetContainerStateValue state <> 0%float) /\
    sent (effect (PerCall.Collect NewExporter None (web :: l, err))) <>
    sent (effect (Startup.Collect NewExporter (web :: l, err))).
Proof.
  intros l err percall startup. subst percall startup.
  unfold result, effect.
  rewrite !PerCall_Collect_run, !Startup_Collect_run. cbn [fst snd sent start app].
  split; [reflexivity|]. split; [|split; [|split; [|split; [|split]]]].
  - rewrite <- !list_fmap_compose. reflexivity.
  - apply Forall_fmap, Forall_true. reflexivity.
  - apply Forall2_fmap_l, Forall_Forall2_diag, Forall_true. reflexivity.
  - apply Forall2_fmap, Forall_Forall2_diag, Forall_true. intros info. cbn.
    split.
    + intros H. symmetry in H. exact (GetContainerStateValue_nonzero _ H).
    + apply GetContainerStateValue_bounds.
  - intros state. split; [apply GetContainerStateValue_bounds|].
    split; [apply GetContainerStateValue_eqb_zero | apply GetContainerStateValue_nonzero].
  - intros H. apply (f_equal (fun ms => val <$> head ms)) in H.
    cbn in H. apply (inj Some) in H. symmetry in H.
    exact (GetContainerStateValue_nonzero _ H).
Qed.

(** A name that is not a '/' followed by some text does not start with '/'. *)
Lemma HasPrefix_slash_false (name : string) :
  (forall t : string, name <> "/" +:+ t) -> strings.HasPrefix name "/" = false.
Proof.
  intros Hno. destruct (strings.HasPrefix name "/") eqn:H; [|reflexivity].
  apply HasPrefix_app in H as [t Ht]. destruct (Hno t Ht).
Qed.

(** C9. The name label of a record is its first declared name without one
    leading '/': a name "/t" gives "t", whatever "t" starts with, and a name
    that is not a '/' followed by some text is kept as it is. *)
Theorem Collect_name_label_strips_one_slash :
  forall info (name : string) (rest : list string) p,
    Names info = name :: rest ->
    exists m : Metric,
      Startup.Collect NewExporter ([info], None) p =
        (Returned tt, {| sent := sent p ++ [m]; logged := logged p |}) /\
      variableLabels (desc m) !! 0 = Some "name" /\
      labelValues m !! 0 = Some (strings.TrimPrefix name "/") /\
      (forall t : string, name = "/" +:+ t -> labelValues m !! 0 = Some t) /\
      ((forall t : string, name <> "/" +:+ t) -> labelValues m !! 0 = Some name).
Proof.
  intros info name rest p Hn. eexists. split; [|split; [|split; [|split]]].
  - rewrite Startup_Collect_loop. cbn [loopOutcome served]. rewrite Hn. reflexivity.
  - reflexivity.
  - cbn. rewrite Hn. reflexivity.
  - intros t ->. cbn. rewrite Hn. reflexivity.
  - intros H. apply HasPrefix_slash_false in H. cbn. rewrite Hn. cbn [hd].
    rewrite (TrimPrefix_no_slash _ H). reflexivity.
Qed.

(** The two documented names: the record [web], declared name
    "/my-container", and the record [plain], declared name "my-container",
    both get the name label "my-container". *)
Lemma Collect_name_label_strips_one_slash_witness :
  (exists m : Metric,
     Startup.Collect NewExporter ([web], None) start =
       (Returned tt, {| sent := sent start ++ [m]; logged := logged start |}) /\
     variableLabels (desc m) !! 0 = Some "name" /\
     labelValues m !! 0 = Some "my-container") /\
  (exists m : Metric,
     Startup.Collect NewExporter ([plain], None) start =
       (Returned tt, {| sent := sent start ++ [m]; logged := logged start |}) /\
     variableLabels (desc m) !! 0 = Some "name" /\
     labelValues m !! 0 = Some "my-container").
Proof.
  split.
  - destruct (Collect_name_label_strips_one_slash web "/my-container" [] start eq_refl)
      as (m & Hrun & Hname & _ & Hslash & _).
    exists m. split; [exact Hrun|]. split; [exact Hname|].
    apply Hslash. reflexivity.
  - destruct (Collect_name_label_strips_one_slash plain "my-container" [] start eq_refl)
      as (m & Hrun & Hname & _ & _ & Hplain).
    exists m. split; [exact Hrun|]. split; [exact Hname|].
    apply Hplain. intros t Ht. discriminate Ht.
Defined.

(** The documented names, and a name with two leading '/'. *)
Example TrimPrefix_vectors :
  strings.TrimPrefix "/my-container" "/" = "my-container" /\
  strings.TrimPrefix "my-container" "/" = "my-container" /\
  strings.TrimPrefix "//my-container" "/" = "/my-container".
Proof. repeat split. Qed.

Example name_label_with_prefix :
  labelValues <$> sent (effect (Startup.Collect NewExporter ([web], None))) =
    [["my-container"; "4f2a9c"; "org/aiforward-service:v2.3"; "Up 2 hours";
      "running"; "v2.3"]].
Proof. reflexivity. Qed.

Example name_label_without_prefix :
  labelValues <$> sent (effect (Startup.Collect NewExporter ([db], None))) =
    [["db"; "c07731"; "postgres"; "Exited (0) 3 days ago"; "exited"; ""]].
Proof. reflexivity. Qed.

End CollectionContract.

(** ** More on the state mapper *)

Section StateMapperKeys.

Local Open Scope float_scope.

(** Membership in a list of literal names, by going through the list. *)
#[local] Ltac not_listed :=
  let Hin := fresh "Hin" in
  intros Hin;
  repeat (apply elem_of_cons in Hin as [Hin|Hin]; [congruence|]);
  apply elem_of_nil in Hin; exact Hin.

#[local] Ltac listed :=
  repeat first [ apply list_elem_of_here | apply list_elem_of_further ].

(** Two float64 constants that differ under [==] are different. *)
#[local] Ltac float_differs H :=
  match type of H with
  | ?a = ?c =>
      apply (f_equal (fun x => PrimFloat.eqb x c)) in H;
      vm_compute in H; discriminate H
  end.

(** X1. The ordinal tells the state: the mapper returns 0.2, 0.4, 0.6 or 1
    exactly for "created", "restarting", "exited" and "running", and 0.1
    exactly for the strings that are none of the four. *)
Theorem GetContainerStateValue_identifies_state :
  forall state : string,
    (GetContainerStateValue state = CreatedStateValue <-> state = CREATED) /\
    (GetContainerStateValue state = RestartingStateValue <-> state = RESTARTING) /\
    (GetContainerStateValue state = ExitedStateValue <-> state = EXITED) /\
    (GetContainerStateValue state = RunningStateValue <-> state = RUNNING) /\
    (GetContainerStateValue state = UNKNOWStateValue <->
     state ∉ [CREATED; RESTARTING; EXITED; RUNNING]).
Proof.
  intros state. rewrite GetContainerStateValue_cases.
  unfold CreatedStateValue, RestartingStateValue, ExitedStateValue,
    RunningStateValue, UNKNOWStateValue, CREATED, RESTARTING, EXITED, RUNNING.
  repeat case_decide; subst;
    (repeat split; intros Heq;
     first [ reflexivity | congruence | float_differs Heq
           | not_listed | exfalso; apply Heq; listed ]).
Qed.

(** X2. The map has the five keys "created", "restarting", "exited",
    "running" and "noknow" and no other: the two-result lookup succeeds
    exactly on them, so every other string, "unknown" among them, takes the
    fallback, which reads the value of the key "noknow". *)
Theorem ContainerStatusMap_keys :
  forall state : string,
    (is_Some (ContainerStatusMap !! state) <->
     state ∈ [CREATED; RESTARTING; EXITED; RUNNING; UNKNOW]) /\
    (ContainerStatusMap !! state = None ->
     GetContainerStateValue state = index ContainerStatusMap UNKNOW) /\
    ContainerStatusMap !! "unknown" = None.
Proof.
  intros state. split; [|split].
  - split.
    + intros Hs.
      destruct (decide (state = CREATED)); [set_solver|].
      destruct (decide (state = RESTARTING)); [set_solver|].
      destruct (decide (state = EXITED)); [set_solver|].
      destruct (decide (state = RUNNING)); [set_solver|].
      destruct (decide (state = UNKNOW)); [set_solver|].
      rewrite ContainerStatusMap_miss in Hs by assumption.
      destruct Hs as [v Hv]. discriminate.
    + intros Hin. repeat (apply elem_of_cons in Hin as [->|Hin]);
        [eexists; vm_compute; reflexivity ..|].
      apply elem_of_nil in Hin. contradiction.
  - intros Hnone. unfold GetContainerStateValue. rewrite Hnone. reflexivity.
  - vm_compute. reflexivity.
Qed.

End StateMapperKeys.

(** ** More on the version extractor *)

Section VersionLabel.

Implicit Types image s a b t rest : string.
#[local] Arguments Ascii.eqb : simpl never.

(** A string that holds a ':' splits at its first one. *)
Lemma first_colon s :
  strings.Contains s ":" = true ->
  exists a b, s = a +:+ String ":" b /\ strings.Contains a ":" = false.
Proof.
  induction s as [|c s IH]; intros H; [discriminate|].
  rewrite Contains_colon_cons in H.
  destruct (Ascii.eqb_spec c ":") as [->|Hc].
  - exists "", s. split; reflexivity.
  - destruct (IH H) as (a & b & -> & Ha).
    exists (String c a), b. split; [reflexivity|].
    rewrite Contains_colon_cons, Ha.
    destruct (Ascii.eqb_spec c ":"); [contradiction | reflexivity].
Qed.

(** What follows the first ':' is a piece without ':' and then either the
    end or another ':'. *)
Lemma second_piece b :
  exists t rest,
    b = t +:+ rest /\ strings.Contains t ":" = false /\
    (rest = "" \/ strings.HasPrefix rest ":" = true).
Proof.
  destruct (strings.Contains b ":") eqn:Hb.
  - destruct (first_colon _ Hb) as (t & r & -> & Ht).
    exists t, (String ":" r). split; [reflexivity|]. split; [exact Ht|].
    right. reflexivity.
  - exists b, "". split; [symmetry; apply append_empty_r|]. split; [exact Hb|].
    left. reflexivity.
Qed.

(** The extractor either returns the empty string or finds its result right
    behind the first ':' of the reference. *)
Lemma GetContainerVersion_shape image :
  GetContainerVersion image = "" \/
  exists a t rest,
    image = a +:+ ":" +:+ t +:+ rest /\
    strings.Contains a ":" = false /\
    strings.Contains t ":" = false /\
    (rest = "" \/ strings.HasPrefix rest ":" = true) /\
    strings.Contains image "aiforward" = true /\
    GetContainerVersion image = t.
Proof.
  destruct (strings.Contains image ":") eqn:Hc;
    [|left; apply GetContainerVersion_no_colon, Hc].
  destruct (strings.Contains image "aiforward") eqn:Hm;
    [|left; apply GetContainerVersion_no_marker, Hm].
  right. destruct (first_colon _ Hc) as (a & b & -> & Ha).
  destruct (second_piece b) as (t & rest & -> & Ht & Hrest).
  exists a, t, rest. repeat (split; [reflexivity || assumption|]).
  apply GetContainerVersion_second_piece; assumption.
Qed.

(** X3. The version label never holds a ':'. *)
Theorem GetContainerVersion_holds_no_colon :
  forall image, strings.Contains (GetContainerVersion image) ":" = false.
Proof.
  intros image.
  destruct (GetContainerVersion_shape image)
    as [-> | (a & t & rest & _ & _ & Ht & _ & _ & ->)]; [reflexivity | exact Ht].
Qed.

(** X4. A version label that is not empty sits right behind the first ':'
    of the reference and ends at the next ':' or at the end of the
    reference; the reference then contains "aiforward". *)
Theorem GetContainerVersion_sits_behind_first_colon :
  forall image,
    GetContainerVersion image <> "" ->
    exists a rest,
      image = a +:+ ":" +:+ GetContainerVersion image +:+ rest /\
      strings.Contains a ":" = false /\
      (rest = "" \/ strings.HasPrefix rest ":" = true) /\
      strings.Contains image "aiforward" = true.
Proof.
  intros image Hne.
  destruct (GetContainerVersion_shape image)
    as [He | (a & t & rest & Himage & Ha & _ & Hrest & Hm & Hv)]; [contradiction|].
  exists a, rest. rewrite Hv. repeat (split; [assumption|]). assumption.
Qed.

(** The reference of the record [web]. *)
Lemma GetContainerVersion_sits_behind_first_colon_witness :
  exists a rest,
    "org/aiforward-service:v2.3" =
      a +:+ ":" +:+ GetContainerVersion "org/aiforward-service:v2.3" +:+ rest /\
    strings.Contains a ":" = false /\
    (rest = "" \/ strings.HasPrefix rest ":" = true) /\
    strings.Contains "org/aiforward-service:v2.3" "aiforward" = true.
Proof.
  apply (GetContainerVersion_sits_behind_first_colon "org/aiforward-service:v2.3").
  vm_compute. discriminate.
Defined.

(** X5. The label is empty in three cases only: the reference holds no ':',
    it does not contain "aiforward", or nothing stands between its first ':'
    and the next ':' or the end. *)
Theorem GetContainerVersion_empty_iff :
  forall image,
    GetContainerVersion image = "" <->
    strings.Contains image ":" = false \/
    strings.Contains image "aiforward" = false \/
    exists a rest,
      image = a +:+ ":" +:+ rest /\
      strings.Contains a ":" = false /\
      (rest = "" \/ strings.HasPrefix rest ":" = true).
Proof.
  intros image. split.
  - intros He.
    destruct (strings.Contains image ":") eqn:Hc; [|left; reflexivity].
    destruct (strings.Contains image "aiforward") eqn:Hm; [|right; left; reflexivity].
    right. right.
    destruct (GetContainerVersion_shape image)
      as [_ | (a & t & rest & Himage & Ha & _ & Hrest & _ & Hv)].
    + destruct (first_colon _ Hc) as (a & b & -> & Ha).
      destruct (second_piece b) as (t & rest & -> & Ht & Hrest).
      assert (t = "") as ->.
      { rewrite <- He. symmetry.
        apply (GetContainerVersion_second_piece a t rest); assumption. }
      exists a, rest. repeat (split; [reflexivity || assumption|]). assumption.
    + rewrite He in Hv. subst t.
      exists a, rest. repeat (split; [assumption|]). assumption.
  - intros [Hc | [Hm | (a & rest & -> & Ha & Hrest)]].
    + apply GetContainerVersion_no_colon, Hc.
    + apply GetContainerVersion_no_marker, Hm.
    + destruct (strings.Contains (a +:+ ":" +:+ rest) "aiforward") eqn:Hm;
        [|apply GetContainerVersion_no_marker, Hm].
      apply (GetContainerVersion_second_piece a "" rest); [assumption | reflexivity | assumption | exact Hm].
Qed.

End VersionLabel.

(** ** More on the collector *)

Section CollectorPasses.

Implicit Types l : list Container.
Implicit Types p : Proc.
Implicit Types info : Container.

Lemma forRange_app {A} (l1 l2 : list A) body p :
  forRange (l1 ++ l2) body p = (forRange l1 body ;; forRange l2 body) p.
Proof.
  revert p. induction l1 as [|x l1 IH]; intros p; [reflexivity|].
  rewrite <- app_comm_cons, !forRange_cons, !run_bind.
  destruct (body x p) as [[[]|msg] p']; [|reflexivity].
  rewrite IH, run_bind. reflexivity.
Qed.

(** A property of the samples sent so far that each turn of the loop keeps
    is kept by the loop. *)
Lemma forRange_sent_Forall {A} (Q : Metric -> Prop) (l : list A) body :
  (forall x p, Forall Q (sent p) -> Forall Q (sent (body x p).2)) ->
  forall p, Forall Q (sent p) -> Forall Q (sent (forRange l body p).2).
Proof.
  intros Hbody. induction l as [|x l IH]; intros p Hp; [exact Hp|].
  rewrite forRange_cons, run_bind.
  pose proof (Hbody x p Hp) as Hx.
  destruct (body x p) as [[[]|msg] p']; [apply IH, Hx | exact Hx].
Qed.

Lemma served_app_named l1 l2 :
  Forall named l1 -> served (l1 ++ l2) = l1 ++ served l2.
Proof.
  induction 1 as [|info l1 Hinfo _ IH]; [reflexivity|].
  simpl. unfold named in Hinfo. destruct (Names info); [congruence|].
  rewrite IH. reflexivity.
Qed.

Lemma attempted_app_named l1 l2 :
  Forall named l1 -> attempted (l1 ++ l2) = l1 ++ attempted l2.
Proof.
  induction 1 as [|info l1 Hinfo _ IH]; [reflexivity|].
  simpl. unfold named in Hinfo. destruct (Names info); [congruence|].
  rewrite IH. reflexivity.
Qed.

Lemma loopOutcome_app_named l1 l2 :
  Forall named l1 -> loopOutcome (l1 ++ l2) = loopOutcome l2.
Proof.
  induction 1 as [|info l1 Hinfo _ IH]; [reflexivity|].
  simpl. unfold named in Hinfo. destruct (Names info); [congruence | exact IH].
Qed.

Lemma loopOutcome_Returned l : loopOutcome l = Returned tt <-> Forall named l.
Proof.
  induction l as [|info l IH]; simpl.
  - split; [constructor | reflexivity].
  - destruct (Names info) as [|name rest] eqn:Hn.
    + split; [discriminate|]. intros H. apply Forall_cons in H as [H _].
      unfold named in H. congruence.
    + rewrite IH. split.
      * intros H. constructor; [unfold named; congruence | exact H].
      * intros H. apply Forall_cons in H as [_ H]. exact H.
Qed.

Lemma loopOutcome_cases l :
  loopOutcome l = Returned tt \/ loopOutcome l = Panicked "index out of range".
Proof.
  induction l as [|info l IH]; simpl; [left; reflexivity|].
  destruct (Names info); [right; reflexivity | exact IH].
Qed.

Lemma served_sublist l : served l `sublist_of` l.
Proof.
  induction l as [|info l IH]; simpl; [constructor|].
  destruct (Names info); [apply sublist_nil_l | constructor; exact IH].
Qed.

(** X6. A pass over a list is a pass over its first part followed, when that
    one returns, by a pass over the rest; a panic in the first part ends the
    pass with what was sent until then. *)
Theorem Collect_app :
  forall (e : Exporter) l1 l2 p,
    Startup.Collect e (l1 ++ l2, None) p =
      match Startup.Collect e (l1, None) p with
      | (Returned _, p') => Startup.Collect e (l2, None) p'
      | (Panicked msg, p') => (Panicked msg, p')
      end.
Proof.
  intros e l1 l2 p. unfold Startup.Collect, Startup.GetContainerList.
  rewrite !run_bind, !run_ret, forRange_app, run_bind.
  destruct (forRange l1 _ p) as [[[]|msg] p']; reflexivity.
Qed.

(** X7. Whatever the exporter and the reply, every sample a pass sends
    carries the descriptor that [Describe] sends, is a gauge, and has one
    label value for each of the six label names: both variants. *)
Theorem Collect_samples_carry_described_descriptor :
  forall (e : Exporter) dial (reply : ListReply) (ch : list Desc),
    let described m :=
      desc m ∈ Describe e ch /\ valType m = GaugeValue /\
      length (labelValues m) = length (variableLabels (desc m)) /\
      length (labelValues m) = 6 in
    Forall described (sent (effect (Startup.Collect e reply))) /\
    Forall described (sent (effect (PerCall.Collect e dial reply))).
Proof.
  intros e dial [l err] ch described.
  assert (forall vt v lv q m q',
            MustNewConstMetric (queryDockerStatus e) vt v lv q = (Returned m, q') ->
            vt = GaugeValue -> length lv = 6 ->
            q' = q /\ described m) as Hnew.
  { intros vt v lv q m q' H -> Hlen. unfold MustNewConstMetric in H.
    destruct (length lv =? length (variableLabels (queryDockerStatus e))) eqn:E;
      [|discriminate].
    apply Nat.eqb_eq in E. injection H as <- <-.
    split; [reflexivity|]. unfold described, Describe. simpl.
    split; [apply elem_of_app; right; apply list_elem_of_here|].
    split; [reflexivity|]. split; [exact E | exact Hlen]. }
  split.
  - unfold effect, Startup.Collect. rewrite run_bind.
    assert (sent (Startup.GetContainerList (l, err) start).2 = []) as Hs
      by (destruct err; reflexivity).
    assert ((Startup.GetContainerList (l, err) start).1 = Returned l) as Hr
      by (destruct err; reflexivity).
    destruct (Startup.GetContainerList (l, err) start) as [r p0].
    simpl in Hs, Hr. subst r.
    apply forRange_sent_Forall; [|rewrite Hs; constructor].
    intros info p Hp. rewrite run_bind. unfold at_index.
    destruct (Names info !! 0) as [name|]; [|exact Hp].
    rewrite run_ret, run_bind.
    destruct (MustNewConstMetric _ _ _ _ p) as [[m|msg] p'] eqn:Hm.
    + apply Hnew in Hm as [-> Hd]; [|reflexivity..].
      unfold send. simpl. apply Forall_app. split; [exact Hp|].
      constructor; [exact Hd | constructor].
    + unfold MustNewConstMetric in Hm.
      destruct (_ =? _) in Hm; [discriminate|].
      injection Hm as _ <-. exact Hp.
  - unfold effect, PerCall.Collect. rewrite run_bind.
    assert (sent (PerCall.GetContainerList dial (l, err) start).2 = []) as Hs
      by (destruct dial, err; reflexivity).
    destruct (PerCall.GetContainerList dial (l, err) start) as [[l0|msg] p0];
      [|simpl in *; rewrite Hs; constructor].
    simpl in Hs.
    apply forRange_sent_Forall; [|rewrite Hs; constructor].
    intros info p Hp. rewrite run_bind. unfold logLine at 1. cbv beta iota.
    rewrite run_bind. unfold at_index.
    destruct (Names info !! 0) as [name|]; [|exact Hp].
    rewrite run_ret, run_bind.
    destruct (MustNewConstMetric _ _ _ _ _) as [[m|msg] p'] eqn:Hm.
    + apply Hnew in Hm as [-> Hd]; [|reflexivity..].
      unfold send. simpl. apply Forall_app. split; [exact Hp|].
      constructor; [exact Hd | constructor].
    + unfold MustNewConstMetric in Hm.
      destruct (_ =? _) in Hm; [discriminate|].
      injection Hm as _ <-. exact Hp.
Qed.

(** X8. A pass returns exactly when every record of the list has a declared
    name, in both variants; when it does not return it ends, in both
    variants, in the panic of the index expression.  The descriptor of
    [NewExporter] has six label names and the call passes six values, so the
    count of label values is never what stops a pass. *)
Theorem Collect_returns_iff_all_named :
  forall l (err : option error),
    (result (Startup.Collect NewExporter (l, err)) = Returned tt <-> Forall named l) /\
    (result (PerCall.Collect NewExporter None (l, err)) = Returned tt <->
     Forall named l) /\
    (result (Startup.Collect NewExporter (l, err)) = Returned tt \/
     result (Startup.Collect NewExporter (l, err)) = Panicked "index out of range") /\
    (result (PerCall.Collect NewExporter None (l, err)) = Returned tt \/
     result (PerCall.Collect NewExporter None (l, err)) =
       Panicked "index out of range") /\
    (forall msg,
       result (Startup.Collect NewExporter (l, err)) = Panicked msg \/
       result (PerCall.Collect NewExporter None (l, err)) = Panicked msg ->
       msg <> "inconsistent label cardinality" /\
       exists l1 info l2,
         l = l1 ++ info :: l2 /\ Forall named l1 /\ Names info = []).
Proof.
  intros l err. unfold result.
  rewrite Startup_Collect_run, PerCall_Collect_run. cbn [fst].
  split; [apply loopOutcome_Returned|].
  split; [apply loopOutcome_Returned|].
  split; [apply loopOutcome_cases|].
  split; [apply loopOutcome_cases|].
  intros msg Hmsg.
  assert (loopOutcome l = Panicked msg) as Hp by (destruct Hmsg; assumption).
  clear Hmsg. split.
  - destruct (loopOutcome_cases l) as [H|H]; rewrite H in Hp; [discriminate|].
    injection Hp as <-. discriminate.
  - induction l as [|info l IH]; [discriminate|].
    simpl in Hp. destruct (Names info) as [|name rest] eqn:Hn.
    + exists [], info, l. split; [reflexivity|]. split; [constructor | exact Hn].
    + destruct (IH Hp) as (l1 & info' & l2 & -> & Hl1 & Hinfo').
      exists (info :: l1), info', l2. split; [reflexivity|].
      split; [|exact Hinfo'].
      constructor; [unfold named; congruence | exact Hl1].
Qed.

(** X9. When every record has a name, the pass returns after sending one
    sample per record, in the order of the list, each with the ordinal of
    the record's state and the record's fields as label values. *)
Theorem Collect_one_sample_per_record_when_all_named :
  forall l (err : option error) p,
    Forall named l ->
    Startup.Collect NewExporter (l, err) p =
      (Returned tt,
       {| sent := sent p ++
                  (sampleOf (fun info => GetContainerStateValue (State info)) <$> l);
          logged := logged p ++ errLines err |}) /\
    length (sent (Startup.Collect NewExporter (l, err) p).2) =
      length (sent p) + length l.
Proof.
  intros l err p Hl.
  rewrite (Startup_Collect_one_sample_per_named_record l err p Hl).
  split; [reflexivity|]. cbn [snd sent].
  rewrite length_app, length_fmap. reflexivity.
Qed.

(** The records [web] and [db], after one sample was sent already. *)
Lemma Collect_one_sample_per_record_when_all_named_witness :
  Startup.Collect NewExporter ([web; db], None) start =
    (Returned tt,
     {| sent := sent start ++
                (sampleOf (fun info => GetContainerStateValue (State info))
                   <$> [web; db]);
        logged := logged start ++ errLines None |}) /\
  length (sent (Startup.Collect NewExporter ([web; db], None) start).2) =
    length (sent start) + length [web; db].
Proof.
  apply (Collect_one_sample_per_record_when_all_named [web; db] None start).
  repeat constructor; discriminate.
Defined.

(** X10. When the first record without a name comes after the records [l1],
    the pass panics there: it has sent the samples of [l1], in order, and
    nothing for the nameless record or for the records behind it. *)
Theorem Collect_sends_the_records_before_the_nameless_one :
  forall l1 info l2 (err : option error) p,
    Forall named l1 ->
    Names info = [] ->
    Startup.Collect NewExporter (l1 ++ info :: l2, err) p =
      (Panicked "index out of range",
       {| sent := sent p ++
                  (sampleOf (fun info => GetContainerStateValue (State info)) <$> l1);
          logged := logged p ++ errLines err |}).
Proof.
  intros l1 info l2 err p Hl1 Hn.
  rewrite Startup_Collect_run, served_app_named, loopOutcome_app_named by assumption.
  cbn [served loopOutcome]. rewrite Hn, app_nil_r. reflexivity.
Qed.

(** The list [web; orphan; db]. *)
Lemma Collect_sends_the_records_before_the_nameless_one_witness :
  Startup.Collect NewExporter ([web] ++ orphan :: [db], None) start =
    (Panicked "index out of range",
     {| sent := sent start ++
                (sampleOf (fun info => GetContainerStateValue (State info)) <$> [web]);
        logged := logged start ++ errLines None |}).
Proof.
  apply (Collect_sends_the_records_before_the_nameless_one [web] orphan [db] None start).
  - repeat constructor; discriminate.
  - reflexivity.
Defined.

(** X11. In every sample the six label values stand under the label names of
    the descriptor as the source lays them out: the trimmed first name under
    "name", then the record's ID, image, status and state, and the version
    label under "version". *)
Theorem Collect_labels_line_up_with_names :
  forall l (err : option error),
    let lined_up m info :=
      zip (variableLabels (desc m)) (labelValues m) =
        [("name", strings.TrimPrefix (hd "" (Names info)) "/");
         ("id", ID info); ("image", Image info); ("status", Status info);
         ("state", State info); ("version", GetContainerVersion (Image info))] in
    Forall2 lined_up (sent (effect (Startup.Collect NewExporter (l, err)))) (served l) /\
    Forall2 lined_up (sent (effect (PerCall.Collect NewExporter None (l, err))))
            (served l).
Proof.
  intros l err lined_up. unfold effect.
  rewrite Startup_Collect_run, PerCall_Collect_run. cbn [snd sent start app].
  split; apply Forall2_fmap_l, Forall_Forall2_diag, Forall_true; reflexivity.
Qed.

(** X12. Records with pairwise distinct IDs give samples with pairwise
    distinct lists of label values: no two samples of a pass collide. *)
Theorem Collect_distinct_ids_give_distinct_labels :
  forall l (err : option error),
    NoDup (ID <$> l) ->
    NoDup (labelValues <$> sent (effect (Startup.Collect NewExporter (l, err)))) /\
    NoDup (labelValues <$> sent (effect (PerCall.Collect NewExporter None (l, err)))).
Proof.
  intros l err Hids. unfold effect.
  rewrite Startup_Collect_run, PerCall_Collect_run. cbn [snd sent start app].
  assert (NoDup (ID <$> served l)) as Hserved.
  { apply (sublist_NoDup (ID <$> served l) (ID <$> l));
      [exact Hids | apply fmap_sublist, served_sublist]. }
  assert (forall value,
            NoDup ((fun lv : list string => lv !! 1) <$>
                   (labelValues <$> (sampleOf value <$> served l)))) as H.
  { intros value. rewrite <- !list_fmap_compose.
    change ((fun lv : list string => lv !! 1) ∘ labelValues ∘ sampleOf value)
      with (Some ∘ ID).
    rewrite list_fmap_compose. apply NoDup_fmap_2; [apply _ | exact Hserved]. }
  split; eapply NoDup_fmap_1, H.
Qed.

(** The records [web] and [db]. *)
Lemma Collect_distinct_ids_give_distinct_labels_witness :
  NoDup (labelValues <$> sent (effect (Startup.Collect NewExporter ([web; db], None)))) /\
  NoDup (labelValues <$>
         sent (effect (PerCall.Collect NewExporter None ([web; db], None)))).
Proof.
  apply (Collect_distinct_ids_give_distinct_labels [web; db] None).
  apply (bool_decide_unpack _). vm_compute. exact I.
Defined.

(** X13. An error of the list call changes the log only.  The gateway hands
    on the list that came with the error, so the pass ends the same way and
    sends the same samples as for that list without an error; it writes one
    more line, and without an error the start-up variant writes none. *)
Theorem Collect_list_error_changes_the_log_only :
  forall l (err : error) p,
    (Startup.Collect NewExporter (l, Some err) p).1 =
      (Startup.Collect NewExporter (l, None) p).1 /\
    sent (Startup.Collect NewExporter (l, Some err) p).2 =
      sent (Startup.Collect NewExporter (l, None) p).2 /\
    logged (Startup.Collect NewExporter (l, None) p).2 = logged p /\
    logged (Startup.Collect NewExporter (l, Some err) p).2 =
      logged p ++ [Printf "connect docker server err, %#v" err].
Proof.
  intros l err p. rewrite !Startup_Collect_run. cbn [fst snd sent logged errLines].
  rewrite app_nil_r. repeat split; reflexivity.
Qed.

(** X14. When the per-call variant cannot create its client, the pass
    returns without a list call: it sends no sample, whatever the runtime
    would have replied, and writes one line to the log. *)
Theorem PerCall_Collect_dial_failure_sends_nothing :
  forall (e : Exporter) (err : error) (reply : ListReply) p,
    PerCall.Collect e (Some err) reply p =
      (Returned tt,
       {| sent := sent p;
          logged := logged p ++ [Printf "connect docker server err, %#v" err] |}) /\
    PerCall.GetContainerList (Some err) reply p =
      (Returned [],
       {| sent := sent p;
          logged := logged p ++ [Printf "connect docker server err, %#v" err] |}).
Proof. intros e err reply p. split; reflexivity. Qed.

(** X15. The per-call variant writes each record to the log before it reads
    the record's names: when it panics on a nameless record, that record is
    the last line of the log, and no sample was sent for it. *)
Theorem PerCall_Collect_logs_the_nameless_record :
  forall l1 info l2 p,
    Forall named l1 ->
    Names info = [] ->
    PerCall.Collect NewExporter None (l1 ++ info :: l2, None) p =
      (Panicked "index out of range",
       {| sent := sent p ++ (sampleOf (fun _ => 0%float) <$> l1);
          logged := logged p ++ (Println <$> l1) ++ [Println info] |}).
Proof.
  intros l1 info l2 p Hl1 Hn.
  rewrite PerCall_Collect_run, served_app_named, attempted_app_named,
    loopOutcome_app_named by assumption.
  cbn [served attempted loopOutcome errLines]. rewrite Hn, app_nil_r.
  rewrite fmap_app. reflexivity.
Qed.

(** The list [web; orphan; db]. *)
Lemma PerCall_Collect_logs_the_nameless_record_witness :
  PerCall.Collect NewExporter None ([web] ++ orphan :: [db], None) start =
    (Panicked "index out of range",
     {| sent := sent start ++ (sampleOf (fun _ => 0%float) <$> [web]);
        logged := logged start ++ (Println <$> [web]) ++ [Println orphan] |}).
Proof.
  apply (PerCall_Collect_logs_the_nameless_record [web] orphan [db] start).
  - repeat constructor; discriminate.
  - reflexivity.
Defined.

End CollectorPasses.

(** ** The connection at start-up *)

Section InitConnection.

(** X16. [InitDockerConnect] calls [Close] once on every path, on the client
    it was handed, as its last step; it stores that client in
    [DockerClient] exactly when the constructor reported no error.  So the
    client it stores is one that has been closed.  It returns unless [Close]
    panics. *)
Theorem InitDockerConnect_closes_the_client_it_stores :
  forall (c : option Client) (err : option error)
         (closeResult : Outcome (option error)) (s : Init),
    let r := InitDockerConnect (c, err) closeResult s in
    closed r.2 = closed s ++ [c] /\
    (err = None -> DockerClient r.2 = c /\ DockerClient r.2 ∈ closed r.2) /\
    (err <> None -> DockerClient r.2 = DockerClient s) /\
    (r.1 = Returned tt <-> exists res, closeResult = Returned res) /\
    (forall msg, r.1 = Panicked msg <-> closeResult = Panicked msg).
Proof.
  intros c err closeResult s r.
  assert (closed r.2 = closed s ++ [c]) as Hclosed
    by (subst r; destruct err, closeResult as [[ce|]|msg]; reflexivity).
  assert (DockerClient r.2 =
          match err with None => c | Some _ => DockerClient s end) as Hclient
    by (subst r; destruct err, closeResult as [[ce|]|msg]; reflexivity).
  assert (r.1 = match closeResult with
                | Returned _ => Returned tt
                | Panicked msg => Panicked msg
                end) as Hout
    by (subst r; destruct err, closeResult as [[ce|]|msg]; reflexivity).
  clearbody r. split; [exact Hclosed|]. split; [|split; [|split]].
  - intros ->. rewrite Hclient, Hclosed. split; [reflexivity|].
    apply elem_of_app. right. apply list_elem_of_here.
  - intros Herr. rewrite Hclient. destruct err; [reflexivity | congruence].
  - rewrite Hout. destruct closeResult as [res|msg]; split.
    + intros _. exists res. reflexivity.
    + intros _. reflexivity.
    + discriminate.
    + intros [res Hres]. discriminate.
  - intros msg. rewrite Hout. destruct closeResult as [res|msg']; split;
      intros Heq; congruence.
Qed.

End InitConnection.

(** ** The string functions against their documentation *)

Section StringsPackage.

Implicit Types s t prefix substr pre post : string.
#[local] Arguments Ascii.eqb : simpl never.

Lemma append_assoc s t post : (s +:+ t) +:+ post = s +:+ t +:+ post.
Proof.
  induction s as [|c s IH]; [reflexivity|].
  rewrite !append_cons, IH. reflexivity.
Qed.

Lemma sliceFrom_append prefix t :
  strings.sliceFrom (String.length prefix) (prefix +:+ t) = t.
Proof. induction prefix as [|c prefix IH]; [reflexivity | exact IH]. Qed.

(** X17. [TrimPrefix] takes the prefix off a string that is the prefix
    followed by some text, and gives that text; a string that is not the
    prefix followed by some text is returned as it is.  [HasPrefix] answers
    true exactly on the strings of the first kind. *)
Theorem TrimPrefix_takes_the_prefix_off :
  forall s prefix,
    (forall t, s = prefix +:+ t -> strings.TrimPrefix s prefix = t) /\
    ((forall t, s <> prefix +:+ t) -> strings.TrimPrefix s prefix = s) /\
    (strings.HasPrefix s prefix = true <-> exists t, s = prefix +:+ t).
Proof.
  intros s prefix. split; [|split].
  - intros t ->. unfold strings.TrimPrefix.
    replace (strings.HasPrefix (prefix +:+ t) prefix) with true
      by (symmetry; apply HasPrefix_app; exists t; reflexivity).
    apply sliceFrom_append.
  - intros Hno. unfold strings.TrimPrefix.
    destruct (strings.HasPrefix s prefix) eqn:H; [|reflexivity].
    apply HasPrefix_app in H as [t Ht]. destruct (Hno t Ht).
  - apply HasPrefix_app.
Qed.

(** X18. [Contains] finds exactly the substrings: it answers true when, and
    only when, the string is some text, then the substring, then some
    text. *)
Theorem Contains_iff_substring :
  forall s substr,
    strings.Contains s substr = true <-> exists pre post, s = pre +:+ substr +:+ post.
Proof.
  intros s substr. split.
  - induction s as [|c s IH].
    + simpl. destruct (strings.HasPrefix "" substr) eqn:H; [|discriminate].
      intros _. apply HasPrefix_app in H as [t Ht]. exists "", t. exact Ht.
    + rewrite Contains_cons. intros H. apply orb_true_iff in H as [H|H].
      * apply HasPrefix_app in H as [t Ht]. exists "", t. exact Ht.
      * destruct (IH H) as (pre & post & ->). exists (String c pre), post.
        reflexivity.
  - intros (pre & post & ->). induction pre as [|c pre IH].
    + change ("" +:+ substr +:+ post) with (substr +:+ post).
      assert (strings.HasPrefix (substr +:+ post) substr = true) as H
        by (apply HasPrefix_app; exists post; reflexivity).
      destruct (substr +:+ post); simpl; simpl in H; rewrite H; reflexivity.
    + rewrite append_cons, Contains_cons, IH. apply orb_true_r.
Qed.

Lemma Split_pieces_hold_no_colon s :
  Forall (fun piece => strings.Contains piece ":" = false) (strings.Split s ":").
Proof.
  induction s as [|c s IH]; simpl; [repeat constructor|].
  destruct (Ascii.eqb c ":") eqn:Hc.
  - constructor; [reflexivity | exact IH].
  - destruct (strings.Split s ":") as [|piece pieces]; [repeat constructor|].
    + rewrite Contains_colon_cons, Hc. reflexivity.
    + apply Forall_cons in IH as [Hp Hps]. constructor; [|exact Hps].
      rewrite Contains_colon_cons, Hc, Hp. reflexivity.
Qed.

(** X19. [Split] at ':' cuts a string into pieces that hold no ':' and that,
    joined by ':', give the string back; there is a single piece exactly
    when the string holds no ':'. *)
Theorem Split_pieces_join_back :
  forall s,
    Join (strings.Split s ":") ":" = s /\
    Forall (fun piece => strings.Contains piece ":" = false) (strings.Split s ":") /\
    (length (strings.Split s ":") = 1 <-> strings.Contains s ":" = false).
Proof.
  intros s. split; [|split; [apply Split_pieces_hold_no_colon|]].
  - induction s as [|c s IH]; [reflexivity|]. simpl strings.Split.
    pose proof (Split_not_nil s ":") as Hne.
    destruct (Ascii.eqb_spec c ":") as [->|Hc].
    + destruct (strings.Split s ":") as [|piece pieces]; [congruence|].
      simpl Join. simpl Join in IH. rewrite IH. reflexivity.
    + destruct (strings.Split s ":") as [|piece pieces]; [congruence|].
      destruct pieces as [|piece' pieces].
      * simpl in *. rewrite IH. reflexivity.
      * simpl Join in *. rewrite append_cons, IH. reflexivity.
  - split.
    + intros Hlen. destruct (strings.Contains s ":") eqn:Hc; [|reflexivity].
      destruct (first_colon _ Hc) as (a & b & -> & Ha).
      rewrite (Split_app _ _ Ha) in Hlen.
      pose proof (Split_not_nil b ":") as Hne.
      destruct (strings.Split b ":"); [congruence | discriminate].
    + intros Hc. rewrite (Split_no_colon _ Hc). reflexivity.
Qed.

End StringsPackage.
